(** * Guarded literal substitution of [temp_edit_game_screen_block.py]

    The script reads one file as text, aborts unless a fixed literal block
    occurs in it, replaces the first occurrence of that block by a longer
    literal block, and writes the text back.

    Python [str] values are modelled as lists of Unicode code points.  The
    file store maps a path to the text stored in the file.  [Path.read_text]
    opens the file in text mode with universal newlines, so what the script
    receives is the stored text with every CR LF and every lone CR turned
    into LF.  [Path.write_text] stores the text it is given; on writing the
    text layer turns LF into the line separator of the platform, which the
    model takes to be LF.  Effects are threaded through a small
    exception-and-state monad over that store. *)

From Stdlib Require Import NArith ZArith Ascii String.
From stdpp Require Import gmap strings list.

Local Open Scope N_scope.
Local Open Scope nat_scope.

(** ** Python strings *)

Abbreviation char := N (only parsing).
Abbreviation str := (list N) (only parsing).

(** A literal of the script, written as a Rocq string of ASCII characters. *)
Definition lit (s : string) : str := N_of_ascii <$> list_ascii_of_string s.

Definition CR : char := 13%N.
Definition LF : char := 10%N.
Definition CRLF : str := [CR; LF].

Module Str.

(** [s.startswith(p)] *)
Fixpoint startswith (s p : str) : bool :=
  match p, s with
  | [], _ => true
  | _ :: _, [] => false
  | a :: p', b :: s' => (a =? b)%N && startswith s' p'
  end.

(** [s.find(sub)]: the lowest index at which [sub] starts, [None] for -1. *)
Fixpoint find (s sub : str) : option nat :=
  if startswith s sub then Some 0
  else match s with
       | [] => None
       | _ :: s' => S <$> find s' sub
       end.

(** [sub in s] *)
Definition contains (sub s : str) : bool :=
  match find s sub with
  | Some _ => true
  | None => false
  end.

(** [s.replace(old, new, 1)]: the leftmost occurrence of [old] is cut out
    and [new] put in its place; without an occurrence [s] is returned. *)
Definition replace1 (s old new : str) : str :=
  match find s old with
  | None => s
  | Some i => take i s ++ new ++ drop (i + length old) s
  end.

(** Number of indices of [s] at which [sub] starts (overlaps counted). *)
Fixpoint occurrences (s sub : str) : nat :=
  (if startswith s sub then 1 else 0) +
  match s with
  | [] => 0
  | _ :: s' => occurrences s' sub
  end.

(** [sub] starts at index [i] of [s]. *)
Definition occurs_at (s sub : str) (i : nat) : bool :=
  (i <=? length s) && startswith (drop i s) sub.

(** Universal newlines, as the text layer applies them when reading: CR LF
    and a CR that no LF follows both become LF. *)
Fixpoint universal_newlines (s : str) : str :=
  match s with
  | [] => []
  | c :: s' =>
      if (c =? CR)%N then
        match s' with
        | d :: s'' =>
            if (d =? LF)%N then LF :: universal_newlines s''
            else LF :: universal_newlines s'
        | [] => [LF]
        end
      else c :: universal_newlines s'
  end.

(** [s.split("\r\n")] *)
Definition cons_head (c : char) (ls : list str) : list str :=
  match ls with
  | [] => [[c]]
  | l :: ls' => (c :: l) :: ls'
  end.

Fixpoint split_crlf (s : str) : list str :=
  match s with
  | [] => [[]]
  | c :: s' =>
      match s' with
      | d :: s'' =>
          if (c =? CR)%N && (d =? LF)%N then [] :: split_crlf s''
          else cons_head c (split_crlf s')
      | [] => [[c]]
      end
  end.

End Str.

(** ** The process: file store, exceptions, output streams *)

Inductive exn :=
| SystemExit (msg : str)
| FileNotFoundError (path : string).

(** What the interpreter writes to standard error when the script ends. *)
Inductive diagnostic :=
| Message (msg : str)
| Traceback (e : exn).

Record World := mkWorld {
  files : gmap string (list N);
  stdout : list N;
  stderr : list diagnostic
}.

Definition M (A : Type) : Type := World -> (exn + A) * World.

Definition ret {A} (a : A) : M A := fun w => (inr a, w).

Definition bind {A B} (m : M A) (k : A -> M B) : M B :=
  fun w => match m w with
           | (inr a, w') => k a w'
           | (inl e, w') => (inl e, w')
           end.

Definition raise {A} (e : exn) : M A := fun w => (inl e, w).

Notation "'let*' x ':=' m 'in' k" := (bind m (fun x => k))
  (at level 10, x name, m at level 200, k at level 200).

(** [Path(path).read_text(encoding="utf-8")]: the file is opened with
    [open(mode='r')] and no [newline] argument, which is universal newlines. *)
Definition read_text (path : string) : M (list N) :=
  fun w => match files w !! path with
           | Some stored => (inr (Str.universal_newlines stored), w)
           | None => (inl (FileNotFoundError path), w)
           end.

(** [Path(path).write_text(text, encoding="utf-8")]: the text is stored as
    given, the line separator of the platform being taken to be LF. *)
Definition write_text (path : string) (text : str) : M unit :=
  fun w => (inr tt, mkWorld (<[path := text]> (files w)) (stdout w) (stderr w)).

(** ** The script *)

Definition path : string := "c:\Advertisment-game\lib\game_screen.dart".

Definition target : str :=
  lit "                if (game.screenSize != size) {" ++ CRLF ++
  lit "                  game.setScreenSize(size);" ++ CRLF ++
  lit "                }" ++ CRLF ++
  CRLF ++
  lit "                final halfWidth = size.width * 0.5;" ++ CRLF.

Definition replacement : str :=
  lit "                if (game.screenSize != size) {" ++ CRLF ++
  lit "                  game.setScreenSize(size);" ++ CRLF ++
  lit "                }" ++ CRLF ++
  lit "                if (kDebugMode) {" ++ CRLF ++
  lit "                  debugPrint(" ++ CRLF ++
  lit "                    'state=\${game.gameState} size=\${size.width.toStringAsFixed(1)}x\${size.height.toStringAsFixed(1)}'," ++ CRLF ++
  lit "                  );" ++ CRLF ++
  lit "                }" ++ CRLF ++
  CRLF ++
  lit "                final halfWidth = size.width * 0.5;" ++ CRLF.

(** Lines 3 to 9 of the script, for any path and pair of literals. *)
Definition edit (path : string) (target replacement : str) : M unit :=
  let* text := read_text path in
  if negb (Str.contains target text)
  then raise (SystemExit (lit "target block not found"))
  else write_text path (Str.replace1 text target replacement).

Definition main : M unit := edit path target replacement.

(** The interpreter around the script: exit status and standard error.  An
    uncaught [SystemExit] with a string argument prints the string to
    standard error and exits with status 1; any other uncaught exception
    prints a traceback and exits with status 1; falling off the end of the
    script exits with status 0. *)
Definition python (prog : M unit) (w : World) : Z * World :=
  match prog w with
  | (inr _, w') => (0%Z, w')
  | (inl (SystemExit msg), w') =>
      (1%Z, mkWorld (files w') (stdout w') (stderr w' ++ [Message msg]))
  | (inl e, w') =>
      (1%Z, mkWorld (files w') (stdout w') (stderr w' ++ [Traceback e]))
  end.

(** A store in which only the script's file exists; nothing printed yet. *)
Definition world_with (text : str) : World := mkWorld {[ path := text ]} [] [].

(** The block of five lines that the replacement literal has in addition. *)
Definition block_head : str :=
  lit "                if (game.screenSize != size) {" ++ CRLF ++
  lit "                  game.setScreenSize(size);" ++ CRLF ++
  lit "                }" ++ CRLF.

Definition block_tail : str :=
  CRLF ++
  lit "                final halfWidth = size.width * 0.5;" ++ CRLF.

Definition debug_lines : list str :=
  [ lit "                if (kDebugMode) {";
    lit "                  debugPrint(";
    lit "                    'state=\${game.gameState} size=\${size.width.toStringAsFixed(1)}x\${size.height.toStringAsFixed(1)}',";
    lit "                  );";
    lit "                }" ].

Definition debug_block : str := concat ((fun l => l ++ CRLF) <$> debug_lines).

(** The exception of line 6, and the store after line 9 wrote [text]. *)
Definition not_found : exn := SystemExit (lit "target block not found").

Definition written (w : World) (text : str) : World :=
  mkWorld (<[path := text]> (files w)) (stdout w) (stderr w).

(** The texts of the scenario with three one-letter lines. *)
Definition text_ABC : str := lit "A" ++ [LF] ++ lit "B" ++ [LF] ++ lit "C" ++ [LF].
Definition text_B : str := lit "B" ++ [LF].
Definition text_BX : str := lit "B" ++ [LF] ++ lit "X" ++ [LF].
Definition text_ABXC : str :=
  lit "A" ++ [LF] ++ lit "B" ++ [LF] ++ lit "X" ++ [LF] ++ lit "C" ++ [LF].

(** ** Facts about the string operations *)

Module StrFacts.
Import Str.

Lemma startswith_nil (s : str) : startswith s [] = true.
Proof. by destruct s. Qed.

Lemma startswith_cons (a b : char) (s p : str) :
  startswith (b :: s) (a :: p) = (a =? b)%N && startswith s p.
Proof. done. Qed.

Lemma startswith_prefix (s p : str) :
  startswith s p = true <-> exists k, s = p ++ k.
Proof.
  revert s. induction p as [|a p IH]; intros s.
  - rewrite startswith_nil. split; [intros _; by exists s | done].
  - destruct s as [|b s]; simpl.
    + split; [done | intros [k Hk]; discriminate].
    + rewrite andb_true_iff, N.eqb_eq, IH. split.
      * intros [-> [k ->]]. by exists k.
      * intros [k Hk]. injection Hk as -> ->. eauto.
Qed.

Lemma startswith_refl_app (p k : str) : startswith (p ++ k) p = true.
Proof. apply startswith_prefix. by exists k. Qed.

Lemma startswith_app (s p k : str) :
  startswith s p = true -> startswith (s ++ k) p = true.
Proof.
  rewrite !startswith_prefix. intros [k' ->].
  exists (k' ++ k). by rewrite <- app_assoc.
Qed.

(** ** [find] returns the leftmost occurrence *)

Lemma find_nil (sub : str) :
  find [] sub = if startswith [] sub then Some 0 else None.
Proof. done. Qed.

Lemma find_cons (c : char) (s sub : str) :
  find (c :: s) sub =
  if startswith (c :: s) sub then Some 0 else S <$> find s sub.
Proof. done. Qed.

Lemma occurrences_cons (c : char) (s sub : str) :
  occurrences (c :: s) sub =
  (if startswith (c :: s) sub then 1 else 0) + occurrences s sub.
Proof. done. Qed.

Lemma find_here (s sub : str) :
  startswith s sub = true -> find s sub = Some 0.
Proof.
  intros H. destruct s; [rewrite find_nil | rewrite find_cons]; by rewrite H.
Qed.

Lemma find_app_here (sub suf : str) : find (sub ++ suf) sub = Some 0.
Proof. apply find_here, startswith_refl_app. Qed.

Lemma find_Some (s sub : str) (i : nat) :
  find s sub = Some i ->
  exists pre suf,
    s = pre ++ sub ++ suf /\ length pre = i /\
    forall j, j < i -> startswith (drop j s) sub = false.
Proof.
  revert i. induction s as [|c s IH]; intros i.
  - rewrite find_nil. destruct sub; [|done]. intros [= <-]. exists [], [].
    split_and!; [done | done | intros; lia].
  - rewrite find_cons. destruct (startswith (c :: s) sub) eqn:E.
    + intros [= <-]. apply startswith_prefix in E as [k Hk].
      exists [], k. split_and!; [done | done | intros; lia].
    + destruct (find s sub) as [i'|] eqn:F; [|done]. simpl. intros [= <-].
      destruct (IH _ eq_refl) as (pre & suf & -> & Hlen & Hmin).
      exists (c :: pre), suf. split_and!; [done | simpl; lia |].
      intros [|j] Hj; [done |]. rewrite skipn_cons. apply Hmin. lia.
Qed.

Lemma find_None (s sub : str) :
  find s sub = None -> forall pre suf, s <> pre ++ sub ++ suf.
Proof.
  induction s as [|c s IH].
  - rewrite find_nil. destruct sub; [done |]. intros _ [|? ?] suf; done.
  - rewrite find_cons. destruct (startswith (c :: s) sub) eqn:E; [done |].
    destruct (find s sub) eqn:F; [done |]. intros _ pre suf Heq.
    destruct pre as [|c' pre].
    + rewrite Heq in E. simpl app in E. by rewrite startswith_refl_app in E.
    + injection Heq as -> Heq. by eapply IH.
Qed.

(** [sub in s] holds exactly when [s] splits around a copy of [sub]. *)
Lemma contains_spec (sub s : str) :
  contains sub s = true <-> exists pre suf, s = pre ++ sub ++ suf.
Proof.
  unfold contains. split.
  - destruct (find s sub) eqn:F; [|done]. intros _.
    destruct (find_Some _ _ _ F) as (pre & suf & ? & _). eauto.
  - intros (pre & suf & ->). destruct (find _ sub) eqn:F; [done |].
    by destruct (find_None _ _ F pre suf).
Qed.



Lemma replace1_absent (s old new : str) :
  contains old s = false -> replace1 s old new = s.
Proof. unfold contains, replace1. by destruct (find s old). Qed.

(** ** Counting occurrences *)

Lemma find_None_occurrences (s sub : str) :
  find s sub = None <-> occurrences s sub = 0.
Proof.
  induction s as [|c s IH].
  - rewrite find_nil. cbn [occurrences].
    destruct (startswith [] sub); split; intros H; (done || lia).
  - rewrite find_cons, occurrences_cons.
    destruct (startswith (c :: s) sub).
    + split; intros H; (done || lia).
    + rewrite fmap_None. apply IH.
Qed.

Lemma occurrences_absent (s sub : str) :
  contains sub s = false <-> occurrences s sub = 0.
Proof.
  rewrite <- find_None_occurrences. unfold contains.
  destruct (find s sub); split; done.
Qed.

Lemma occurrences_contains (s sub : str) :
  contains sub s = true <-> 0 < occurrences s sub.
Proof.
  pose proof (occurrences_absent s sub) as H.
  destruct (contains sub s), (occurrences s sub);
    intuition (done || lia).
Qed.

(** The count is the number of indices at which [sub] starts. *)
Lemma occurs_at_0 (s sub : str) : occurs_at s sub 0 = startswith s sub.
Proof. done. Qed.

Lemma occurs_at_S (c : char) (s sub : str) (i : nat) :
  occurs_at (c :: s) sub (S i) = occurs_at s sub i.
Proof. done. Qed.

Lemma occurs_at_spec (s sub : str) (i : nat) :
  occurs_at s sub i = true <->
  exists pre suf, s = pre ++ sub ++ suf /\ length pre = i.
Proof.
  unfold occurs_at. rewrite andb_true_iff, Nat.leb_le, startswith_prefix.
  split.
  - intros [Hi [k Hk]]. exists (take i s), k. split.
    + by rewrite <- Hk, take_drop.
    + rewrite length_take. lia.
  - intros (pre & suf & -> & <-). split.
    + rewrite length_app. lia.
    + exists suf. by rewrite drop_app_length.
Qed.

Lemma occurrences_indices (s sub : str) :
  occurrences s sub =
  length (List.filter (occurs_at s sub) (seq 0 (S (length s)))).
Proof.
  induction s as [|c s IH].
  - by destruct sub.
  - rewrite occurrences_cons, IH. cbn [length].
    change (seq 0 (S (S (length s)))) with (0 :: seq 1 (S (length s))).
    rewrite <- seq_shift. cbn [List.filter]. rewrite occurs_at_0.
    rewrite filter_map_swap.
    change (fun i => occurs_at (c :: s) sub (S i)) with (occurs_at s sub).
    destruct (startswith (c :: s) sub); cbn [length]; by rewrite length_map.
Qed.

End StrFacts.

(** ** The two literals of the script *)



Lemma literal_lengths : length target = 167 /\ length replacement = 397.
Proof. split; vm_compute; reflexivity. Qed.

(** The target literal holds carriage returns, so a text without any does
    not pass the guard. *)
Lemma guard_needs_CR (text : str) :
  Str.contains target text = true -> CR ∈ text.
Proof.
  intros (pre & suf & ->)%StrFacts.contains_spec.
  apply elem_of_app; right. apply elem_of_app; left.
  apply list_elem_of_In. vm_compute. tauto.
Qed.

(** ** Universal newlines *)

Lemma universal_newlines_other (c : char) (s : str) :
  c <> CR ->
  Str.universal_newlines (c :: s) = c :: Str.universal_newlines s.
Proof.
  intros Hc. cbn [Str.universal_newlines].
  by apply N.eqb_neq in Hc as ->.
Qed.

Lemma universal_newlines_CR_LF (s : str) :
  Str.universal_newlines (CR :: LF :: s) = LF :: Str.universal_newlines s.
Proof. done. Qed.

Lemma universal_newlines_CR_other (d : char) (s : str) :
  d <> LF ->
  Str.universal_newlines (CR :: d :: s) = LF :: Str.universal_newlines (d :: s).
Proof.
  intros Hd. cbn [Str.universal_newlines]. rewrite N.eqb_refl.
  by apply N.eqb_neq in Hd as ->.
Qed.

(** What is read holds no carriage return. *)
Lemma universal_newlines_bounded (n : nat) (s : str) :
  length s <= n -> CR ∉ Str.universal_newlines s.
Proof.
  revert s. induction n as [|n IH]; intros s Hlen.
  - destruct s; [apply not_elem_of_nil | simpl in Hlen; lia].
  - destruct s as [|c s]; [apply not_elem_of_nil |]. simpl in Hlen.
    destruct (decide (c = CR)) as [-> | Hc].
    + destruct s as [|d s].
      * apply not_elem_of_cons. split; [done | apply not_elem_of_nil].
      * simpl in Hlen. destruct (decide (d = LF)) as [-> | Hd].
        -- rewrite universal_newlines_CR_LF. apply not_elem_of_cons.
           split; [done | apply IH; lia].
        -- rewrite universal_newlines_CR_other by done.
           apply not_elem_of_cons. split; [done | apply IH; simpl; lia].
    + rewrite universal_newlines_other by done.
      apply not_elem_of_cons. split; [done | apply IH; lia].
Qed.

Lemma universal_newlines_no_CR (s : str) : CR ∉ Str.universal_newlines s.
Proof. by apply (universal_newlines_bounded (length s)). Qed.

(** A text without carriage returns is read as it is stored. *)
Lemma universal_newlines_id (s : str) :
  CR ∉ s -> Str.universal_newlines s = s.
Proof.
  induction s as [|c s IH]; [done |].
  intros [Hc Hs]%not_elem_of_cons.
  rewrite universal_newlines_other by done. by rewrite IH.
Qed.

(** The guard of the script fails on whatever was read. *)
Lemma guard_fails (stored : str) :
  Str.contains target (Str.universal_newlines stored) = false.
Proof.
  destruct (Str.contains target _) eqn:E; [|done].
  apply guard_needs_CR in E. by apply universal_newlines_no_CR in E.
Qed.

(** ** The script, evaluated *)

Lemma edit_eval (p : string) (old new : str) (w : World) (stored : str) :
  files w !! p = Some stored ->
  edit p old new w =
  if Str.contains old (Str.universal_newlines stored)
  then (inr tt,
        mkWorld (<[p := Str.replace1 (Str.universal_newlines stored) old new]>
                   (files w))
                (stdout w) (stderr w))
  else (inl not_found, w).
Proof.
  intros H. unfold edit, bind, read_text. rewrite H.
  by destruct (Str.contains old _).
Qed.

Lemma edit_missing (p : string) (old new : str) (w : World) :
  files w !! p = None -> edit p old new w = (inl (FileNotFoundError p), w).
Proof. intros H. unfold edit, bind, read_text. by rewrite H. Qed.

Lemma main_missing (w : World) :
  files w !! path = None -> main w = (inl (FileNotFoundError path), w).
Proof. apply edit_missing. Qed.

Lemma main_fails (w : World) (stored : str) :
  files w !! path = Some stored -> main w = (inl not_found, w).
Proof.
  intros Hw. unfold main. by rewrite (edit_eval _ _ _ _ _ Hw), guard_fails.
Qed.



Lemma written_lookup (w : World) (text : str) :
  files (written w text) !! path = Some text.
Proof. apply lookup_insert_eq. Qed.

(** ** The guard *)

(** C1: when the text of the file does not contain the target literal, the
    script raises [SystemExit('target block not found')] and the store is
    left exactly as it was, also after the interpreter has ended. *)
Theorem absent_target_fails (w : World) (text : str) :
  files w !! path = Some text ->
  Str.contains target text = false ->
  main w = (inl not_found, w) /\
  files (snd (python main w)) = files w /\
  files (snd (python main w)) !! path = Some text.
Proof.
  intros Hw Hc. pose proof (main_fails _ _ Hw) as Hm.
  unfold python. rewrite Hm. by cbn.
Qed.

Lemma absent_target_fails_witness :
  files (world_with text_ABC) !! path = Some text_ABC /\
  Str.contains target text_ABC = false /\
  main (world_with text_ABC) = (inl not_found, world_with text_ABC).
Proof.
  split; [vm_compute; reflexivity |]. split; [vm_compute; reflexivity |].
  apply (absent_target_fails (world_with text_ABC) text_ABC);
    vm_compute; reflexivity.
Defined.

(** ** A file that holds the target block *)

(** C2 (defect of the script): on a file whose stored text holds the target
    literal exactly once, the script does not succeed.  The text it reads
    has LF where the file has CR LF, the guard does not find the literal,
    and the script raises [SystemExit('target block not found')] with the
    file left as it was. *)
Theorem single_occurrence_not_replaced :
  Str.occurrences (text_B ++ target ++ text_BX) target = 1 /\
  main (world_with (text_B ++ target ++ text_BX)) =
    (inl not_found, world_with (text_B ++ target ++ text_BX)) /\
  fst (python main (world_with (text_B ++ target ++ text_BX))) = 1%Z.
Proof.
  assert (main (world_with (text_B ++ target ++ text_BX)) =
          (inl not_found, world_with (text_B ++ target ++ text_BX))) as Hm.
  { apply (main_fails _ (text_B ++ target ++ text_BX)). vm_compute. reflexivity. }
  split_and!; [vm_compute; reflexivity | done |].
  unfold python. by rewrite Hm.
Qed.

(** C3 (defect of the script, the same as for C2): on a file whose stored
    text holds the target literal twice, the script replaces neither
    occurrence: the guard fails on the text read and the file is left as it
    was. *)
Theorem first_occurrence_not_replaced :
  2 <= Str.occurrences (target ++ text_B ++ target) target /\
  main (world_with (target ++ text_B ++ target)) =
    (inl not_found, world_with (target ++ text_B ++ target)) /\
  files (snd (python main (world_with (target ++ text_B ++ target)))) !! path
    = Some (target ++ text_B ++ target).
Proof.
  assert (main (world_with (target ++ text_B ++ target)) =
          (inl not_found, world_with (target ++ text_B ++ target))) as Hm.
  { apply (main_fails _ (target ++ text_B ++ target)). vm_compute. reflexivity. }
  split_and!; [vm_compute; lia | done |].
  unfold python. rewrite Hm. vm_compute. reflexivity.
Qed.

(** ** The shape of the two literals *)

(** C4 (as stated, refuted): the lines of the replacement literal are not
    the lines of the target literal with three lines inserted; the
    replacement has five lines more. *)
Lemma three_lines_counterexample :
  length (Str.split_crlf replacement) = length (Str.split_crlf target) + 5 /\
  ~ exists pre ins post : list (list N),
      Str.split_crlf target = pre ++ post /\
      Str.split_crlf replacement = pre ++ ins ++ post /\
      length ins = 3.
Proof.
  split; [vm_compute; reflexivity |].
  intros (pre & ins & post & Ht & Hr & Hlen).
  assert (length (Str.split_crlf target) = 6) as Lt by (vm_compute; reflexivity).
  assert (length (Str.split_crlf replacement) = 11) as Lr
    by (vm_compute; reflexivity).
  rewrite Ht in Lt. rewrite Hr in Lr. rewrite !length_app in *. lia.
Qed.

(** C4 (amended): the replacement literal is the target literal with the
    five lines of the debug block inserted between its third and its
    fourth line; all other lines are those of the target literal, in the
    same order. *)
Theorem replacement_inserts_five_lines :
  target = block_head ++ block_tail /\
  replacement = block_head ++ debug_block ++ block_tail /\
  Str.split_crlf target =
    take 3 (Str.split_crlf target) ++ drop 3 (Str.split_crlf target) /\
  Str.split_crlf replacement =
    take 3 (Str.split_crlf target) ++ debug_lines ++
    drop 3 (Str.split_crlf target) /\
  length debug_lines = 5.
Proof.
  split_and!; vm_compute; reflexivity.
Qed.

(** ** Running the script again *)

(** C9 (defect of the script, the same as for C2): the target literal does
    not occur in the replacement literal, but on a file whose stored text
    holds the target literal exactly once the script fails the guard, so
    the file after the run still holds that one occurrence. *)
Theorem target_remains_after_run :
  Str.contains target replacement = false /\
  Str.occurrences (text_B ++ target) target = 1 /\
  main (world_with (text_B ++ target)) =
    (inl not_found, world_with (text_B ++ target)) /\
  files (snd (python main (world_with (text_B ++ target)))) !! path
    = Some (text_B ++ target).
Proof.
  assert (main (world_with (text_B ++ target)) =
          (inl not_found, world_with (text_B ++ target))) as Hm.
  { apply (main_fails _ (text_B ++ target)). vm_compute. reflexivity. }
  split_and!; [vm_compute; reflexivity | vm_compute; reflexivity | done |].
  unfold python. rewrite Hm. vm_compute. reflexivity.
Qed.



(** ** The edit only inserts *)





(** ** The scenario with three one-letter lines *)

(** C6: with the target [B] and the replacement [B], [X] (one line each,
    ended by a line feed), the guarded replacement applied to a file that
    holds the lines [A], [B], [C] succeeds and leaves the lines [A], [B],
    [X], [C] in it. *)
Theorem scenario_ABC (p : string) (fs : gmap string (list N))
    (out : list N) (err : list diagnostic) :
  Str.contains text_B text_ABC = true /\
  Str.replace1 text_ABC text_B text_BX = text_ABXC /\
  edit p text_B text_BX (mkWorld (<[p := text_ABC]> fs) out err) =
    (inr tt, mkWorld (<[p := text_ABXC]> fs) out err).
Proof.
  split_and!; [done | done |].
  rewrite (edit_eval _ _ _ _ text_ABC) by apply lookup_insert_eq.
  replace (Str.universal_newlines text_ABC) with text_ABC by done.
  cbn [files stdout stderr]. by rewrite insert_insert_eq.
Qed.

(** ** Exit status and output streams *)

(** C7: the script, and the same guarded replacement with any path and
    literals, prints nothing on standard output; a run that succeeds ends
    with exit status 0 and nothing on standard error; a run in which the
    text read does not contain the first literal ends with exit status 1
    and the message [target block not found] on standard error. *)
Theorem exit_behaviour (p : string) (old new : str) (w : World)
    (stored : str) :
  files w !! p = Some stored ->
  stdout (snd (python (edit p old new) w)) = stdout w /\
  (fst (edit p old new w) = inr tt ->
     fst (python (edit p old new) w) = 0%Z /\
     stderr (snd (python (edit p old new) w)) = stderr w) /\
  (Str.contains old (Str.universal_newlines stored) = false ->
     fst (python (edit p old new) w) = 1%Z /\
     fst (python (edit p old new) w) <> 0%Z /\
     stderr (snd (python (edit p old new) w)) =
       stderr w ++ [Message (lit "target block not found")]).
Proof.
  intros Hw. unfold python. rewrite (edit_eval _ _ _ _ _ Hw).
  destruct (Str.contains old _); cbn; split_and!; done.
Qed.

Lemma exit_behaviour_witness :
  files (world_with text_ABC) !! path = Some text_ABC /\
  fst (edit path text_B text_BX (world_with text_ABC)) = inr tt /\
  fst (python (edit path text_B text_BX) (world_with text_ABC)) = 0%Z /\
  files (world_with target) !! path = Some target /\
  Str.contains target (Str.universal_newlines target) = false /\
  fst (python main (world_with target)) = 1%Z /\
  stderr (snd (python main (world_with target))) =
    [Message (lit "target block not found")].
Proof.
  split; [vm_compute; reflexivity |]. split; [vm_compute; reflexivity |].
  split; [apply (exit_behaviour path text_B text_BX (world_with text_ABC)
                   text_ABC); vm_compute; reflexivity |].
  split; [vm_compute; reflexivity |]. split; [vm_compute; reflexivity |].
  split; apply (exit_behaviour path target replacement (world_with target)
                  target); vm_compute; reflexivity.
Defined.

(** ** Determinism *)

(** C8: two runs that start with the same content of the script's file (or
    both without that file) end with the same outcome, the same exit status
    and the same content of that file, whatever else differs between the
    two stores and output streams. *)
Theorem main_deterministic (w1 w2 : World) :
  files w1 !! path = files w2 !! path ->
  fst (main w1) = fst (main w2) /\
  fst (python main w1) = fst (python main w2) /\
  files (snd (main w1)) !! path = files (snd (main w2)) !! path /\
  files (snd (python main w1)) !! path = files (snd (python main w2)) !! path.
Proof.
  intros H. unfold python.
  destruct (files w2 !! path) as [text|] eqn:H2.
  - rewrite (main_fails _ _ H), (main_fails _ _ H2). cbn.
    split_and!; congruence.
  - rewrite (main_missing _ H), (main_missing _ H2). cbn.
    split_and!; congruence.
Qed.

Lemma main_deterministic_witness :
  files (world_with target) !! path =
    files (mkWorld (<["other.txt" := text_B]> {[ path := target ]})
                   text_BX [Message text_B]) !! path /\
  fst (main (world_with target)) =
    fst (main (mkWorld (<["other.txt" := text_B]> {[ path := target ]})
                       text_BX [Message text_B])).
Proof.
  split; [vm_compute; reflexivity |].
  apply (main_deterministic (world_with target)
           (mkWorld (<["other.txt" := text_B]> {[ path := target ]})
                    text_BX [Message text_B])).
  vm_compute; reflexivity.
Defined.

(** ** Further properties of the script *)

(** X1: the script neither creates nor removes a file: in every outcome
    (success, failed guard, missing file) the set of paths that exist is
    the one it started with. *)
Theorem main_keeps_paths (w : World) :
  dom (files (snd (main w))) = dom (files w).
Proof.
  destruct (files w !! path) as [text|] eqn:Hw.
  - by rewrite (main_fails _ _ Hw).
  - by rewrite (main_missing _ Hw).
Qed.

(** X2: whatever the outcome, the script leaves every file other than its
    own path as it was, and it writes to neither output stream itself. *)
Theorem main_frame (w : World) (q : string) :
  q <> path ->
  files (snd (main w)) !! q = files w !! q /\
  stdout (snd (main w)) = stdout w /\
  stderr (snd (main w)) = stderr w.
Proof.
  intros Hq. destruct (files w !! path) as [text|] eqn:Hw.
  - by rewrite (main_fails _ _ Hw).
  - by rewrite (main_missing _ Hw).
Qed.

Lemma main_frame_witness :
  "other.txt" <> path /\
  files (snd (main (mkWorld (<["other.txt" := text_B]> {[ path := target ]})
                            text_BX [])))
    !! "other.txt" = Some text_B.
Proof.
  split; [discriminate |].
  destruct (main_frame (mkWorld (<["other.txt" := text_B]> {[ path := target ]})
                                text_BX []) "other.txt") as [H _];
    [discriminate |].
  rewrite H. vm_compute. reflexivity.
Defined.

(** X3: when the script's file does not exist, [read_text] raises
    [FileNotFoundError]; the guard and the write are not reached, the store
    is unchanged, and the process ends with status 1 and a traceback on
    standard error. *)
Theorem missing_file_fails (w : World) :
  files w !! path = None ->
  main w = (inl (FileNotFoundError path), w) /\
  python main w =
    (1%Z, mkWorld (files w) (stdout w)
                  (stderr w ++ [Traceback (FileNotFoundError path)])) /\
  files (snd (python main w)) !! path = None.
Proof.
  intros Hw. unfold python. rewrite (main_missing _ Hw). by cbn.
Qed.

Lemma missing_file_fails_witness :
  files (mkWorld ∅ [] []) !! path = None /\
  main (mkWorld ∅ [] []) = (inl (FileNotFoundError path), mkWorld ∅ [] []).
Proof.
  split; [vm_compute; reflexivity |].
  apply (missing_file_fails (mkWorld ∅ [] [])). vm_compute; reflexivity.
Defined.

(** X4: a text without a carriage return never passes the guard, because
    the target literal ends its lines with CR LF: the script raises
    [SystemExit('target block not found')] and leaves the store as it is. *)
Theorem text_without_CR_rejected (w : World) (text : str) :
  files w !! path = Some text ->
  CR ∉ text ->
  main w = (inl not_found, w) /\ fst (python main w) = 1%Z.
Proof.
  intros Hw Hcr. unfold python. by rewrite (main_fails _ _ Hw).
Qed.

Lemma text_without_CR_rejected_witness :
  files (world_with text_ABC) !! path = Some text_ABC /\
  (CR ∉ text_ABC) /\
  main (world_with text_ABC) = (inl not_found, world_with text_ABC) /\
  fst (python main (world_with text_ABC)) = 1%Z.
Proof.
  assert (CR ∉ text_ABC) as Hcr.
  { intros H%list_elem_of_In. vm_compute in H. intuition discriminate. }
  split; [vm_compute; reflexivity |]. split; [exact Hcr |].
  apply (text_without_CR_rejected (world_with text_ABC) text_ABC);
    [vm_compute; reflexivity | exact Hcr].
Defined.



(** X6: the script never succeeds.  Whatever the store, the run ends with
    exit status 1 and leaves the store exactly as it was: the text read
    holds no carriage return, and the target literal holds some. *)
Theorem main_never_succeeds (w : World) :
  fst (main w) <> inr tt /\
  snd (main w) = w /\
  fst (python main w) = 1%Z /\
  files (snd (python main w)) = files w.
Proof.
  unfold python. destruct (files w !! path) as [stored|] eqn:Hw.
  - by rewrite (main_fails _ _ Hw).
  - by rewrite (main_missing _ Hw).
Qed.


